(** * component-library: the rendering functions and the build configuration

    A shallow embedding of [src/components/Input.tsx] and [vite.config.ts].
    A property bag is a JavaScript object used as a map from attribute name
    to value, so it is a [gmap string value]; a JSX expression denotes an
    element description: a tag, the attribute object handed to the element
    and the children written between its tags. *)

From Stdlib Require Import ZArith.
From stdpp Require Import base option strings list gmap fin_maps pretty.

Local Open Scope string_scope.
Set Warnings "-register-all".

(** ** Values *)

(** The values a caller can put in a property bag.  The components never
    inspect a value, so functions (event handlers) and objects (style
    records, refs, nested elements) are opaque handles, and integers stand
    for the numbers. *)
Inductive value : Type :=
| VUndefined
| VNull
| VBool (b : bool)
| VNum (n : Z)
| VStr (s : string)
| VFun (id : nat)
| VObj (id : nat).

(** ** Element descriptions *)

(** [Child v] is an expression child [{v}]; [Elem tag attrs children] is
    [<tag {...attrs}>children</tag>], with the children written between the
    tags.  A [children] entry of a spread bag stays an entry of [attrs]: the
    one element [Input] spreads a bag on is [input], which has no content. *)
Inductive node : Type :=
| Child (v : value)
| Elem (tag : string) (attrs : gmap string value) (children : list node).

(** Every element of a tree, parents before children, left to right. *)
Fixpoint elements_of (n : node) : list (string * gmap string value) :=
  match n with
  | Child _ => []
  | Elem tag attrs children => (tag, attrs) :: flat_map elements_of children
  end.

(** The rendering target's convention for a prop value: [undefined] and
    [null] set no attribute, every other value is handed over as it is. *)
Definition rendered (v : value) : option value :=
  match v with
  | VUndefined | VNull => None
  | _ => Some v
  end.

(** The attribute [k] of a rendered element whose prop object is [attrs]. *)
Definition attribute (attrs : gmap string value) (k : string) : option value :=
  attrs !! k ≫= rendered.

(** The text a child value renders to: strings and numbers are text, the
    other values render nothing. *)
Definition text_of (v : value) : string :=
  match v with
  | VStr s => s
  | VNum n => pretty n
  | _ => ""
  end.

(** Text content of a tree: the texts of its leaves, in document order. *)
Fixpoint textContent (n : node) : string :=
  match n with
  | Child v => text_of v
  | Elem _ _ children => foldr (λ c acc, textContent c +:+ acc) "" children
  end.

(** ** Object operations of the language *)

Module JS.

(** Property read [o.k]: [undefined] when [o] has no property [k]. *)
Definition get (o : gmap string value) (k : string) : value :=
  default VUndefined (o !! k).

(** The rest object of a destructuring pattern [{ k1, ..., kn, ...rest }]:
    the properties of [o] other than the named ones. *)
Definition rest (names : list string) (o : gmap string value)
  : gmap string value :=
  foldr delete o names.

(** Spread [{ ...lit, ...o }] after the literal properties [lit]: each
    property of [o] is copied and replaces a property of the same name. *)
Definition spread (lit o : gmap string value) : gmap string value :=
  o ∪ lit.

End JS.

(** ** [src/components/Input.tsx] *)

(** The five fields the destructuring pattern of [Input] names. *)
Definition named_fields : list string :=
  ["label"; "placeholder"; "type"; "inputClassName"; "labelClassName"].

Definition Input (bag : gmap string value) : node :=
  let label := JS.get bag "label" in
  let placeholder := JS.get bag "placeholder" in
  let type := JS.get bag "type" in
  let inputClassName := JS.get bag "inputClassName" in
  let labelClassName := JS.get bag "labelClassName" in
  let props := JS.rest named_fields bag in
  Elem "label" {[ "className" := labelClassName ]}
    [ Child label;
      Elem "input"
        (JS.spread
           (<["placeholder" := placeholder]>
              (<["type" := type]> {[ "className" := inputClassName ]}))
           props)
        [] ].

(** The attribute objects of the two elements [Input] builds, named for the
    statements about them. *)
Definition label_attrs (bag : gmap string value) : gmap string value :=
  {[ "className" := JS.get bag "labelClassName" ]}.

Definition input_attrs (bag : gmap string value) : gmap string value :=
  JS.spread
    (<["placeholder" := JS.get bag "placeholder"]>
       (<["type" := JS.get bag "type"]>
          {[ "className" := JS.get bag "inputClassName" ]}))
    (JS.rest named_fields bag).

(** What the class-name sentence of the specification says of one call: the
    output has exactly two elements, the label carrying [labelClassName] as
    its class and the input carrying [inputClassName] as its class. *)
Definition class_names_applied (bag : gmap string value) : Prop :=
  ∃ la ia,
    elements_of (Input bag) = [("label", la); ("input", ia)]
    ∧ la !! "className" = Some (JS.get bag "labelClassName")
    ∧ ia !! "className" = Some (JS.get bag "inputClassName").

(** ** [src/components/Button.tsx] *)

Definition component : Type := gmap string value → node.

(** Modelled from the spec: [src/components/Button.tsx] is not among the
    source files.  The specification describes Button as rendering a
    clickable control that forwards all caller-supplied attributes unchanged
    to the underlying interactive element, with no named field of its own:
    [<button {...props} />]. *)
Definition Button : component :=
  λ props, Elem "button" (JS.spread ∅ props) [].

(** ** [src/index.ts] *)

Module ESModule.

(** The export table of a module: exported name to exported component. *)
Definition exports : Type := list (string * component).

(** The binding a named import resolves to: the first one of that name. *)
Fixpoint lookup_export (name : string) (m : list (string * component))
  : option component :=
  match m with
  | [] => None
  | (n, c) :: m' => if decide (n = name) then Some c else lookup_export name m'
  end.

(** [export { default as name } from m]. *)
Definition export_default_as (name : string) (m : exports) : exports :=
  match lookup_export "default" m with
  | Some c => [(name, c)]
  | None => []
  end.

Definition exported_names (m : list (string * component)) : list string :=
  m.*1.

End ESModule.

Definition components_Input : ESModule.exports := [("default", Input)].

Definition components_Button : ESModule.exports := [("default", Button)].

(** Modelled from the spec: [src/index.ts] is not among the source files.
    The specification gives the public API surface as a mapping from
    component name to component with members Button and Input; the
    repository's guide quotes the file as the two re-exports below. *)
Definition index_ts : ESModule.exports :=
  (ESModule.export_default_as "Button" components_Button
   ++ ESModule.export_default_as "Input" components_Input)%list.

(** ** [vite.config.ts] *)

Module Vite.

(** The library formats the build tool knows. *)
Inductive format : Type := es | cjs | umd | iife | system.

Definition format_name (f : format) : string :=
  match f with
  | es => "es" | cjs => "cjs" | umd => "umd" | iife => "iife"
  | system => "system"
  end.

(** [build.lib.entry] is one path, several paths or named paths. *)
Inductive lib_entry : Type :=
| EntryPath (p : string)
| EntryPaths (ps : list string)
| EntryNamed (ps : list (string * string)).

Record lib_options : Type := {
  entry : lib_entry;
  name : string;
  formats : list format;
  fileName : format → string
}.

Record rollup_options : Type := {
  external : list string;
  globals : list (string * string)
}.

Record build_options : Type := {
  lib : lib_options;
  rollupOptions : rollup_options
}.

(** The files bundling starts from. *)
Definition entry_points (e : lib_entry) : list string :=
  match e with
  | EntryPath p => [p]
  | EntryPaths ps => ps
  | EntryNamed ps => ps.*2
  end.

(** One artifact per declared format, named by [fileName]. *)
Definition artifacts (b : build_options) : list string :=
  fileName (lib b) <$> formats (lib b).

(** A string in [external] matches an import id exactly. *)
Definition is_external (b : build_options) (id : string) : bool :=
  bool_decide (id ∈ external (rollupOptions b)).

(** Of the modules a source imports, the ones that go into the bundle. *)
Definition bundled (b : build_options) (imports : list string) : list string :=
  filter (λ id, is_external b id = false) imports.

End Vite.

(** [path.resolve(dir, rel)] for a relative [rel] without dot segments. *)
Definition resolve (dir rel : string) : string := dir +:+ "/" +:+ rel.

(** The [build] section of the exported configuration; [dirname] is the
    directory of the configuration file. *)
Definition build (dirname : string) : Vite.build_options :=
  {| Vite.lib :=
       {| Vite.entry := Vite.EntryPath (resolve dirname "src/index.ts");
          Vite.name := "ComponentApp";
          Vite.formats := [Vite.es; Vite.umd];
          Vite.fileName := λ format,
            "component-app." +:+ Vite.format_name format +:+ ".js" |};
     Vite.rollupOptions :=
       {| Vite.external := ["react"; "react-dom"; "react/jsx-runtime"];
          Vite.globals :=
            [("react", "React"); ("react-dom", "ReactDOM");
             ("react/jsx-runtime", "jsxRuntime")] |} |}.

(** ** Sample property bags *)

(** The concrete Input scenario of the specification. *)
Definition bag_email : gmap string value :=
  <["label" := VStr "Email"]>
  (<["placeholder" := VStr "you@example.com"]>
  (<["type" := VStr "email"]>
  (<["inputClassName" := VStr "field"]>
  (<["labelClassName" := VStr "wrap"]> ∅)))).

(** A caller that gives both [inputClassName] and a pass-through
    [className]. *)
Definition bag_two_classes : gmap string value :=
  <["inputClassName" := VStr "field"]> (<["className" := VStr "other"]> ∅).

(** The concrete Button scenario of the specification. *)
Definition bag_click : gmap string value :=
  <["onClick" := VFun 0]> (<["disabled" := VBool true]> ∅).

(** A [type] that is no legal input type, and no [placeholder]. *)
Definition bag_odd_type : gmap string value :=
  <["type" := VStr "no-such-type"]> ∅.

(** A bag with two pass-through attributes and one named field. *)
Definition bag_extra : gmap string value :=
  <["id" := VStr "email"]>
  (<["onChange" := VFun 7]> (<["label" := VStr "Email"]> ∅)).

(** ** [output.globals] of [vite.config.ts] *)

(** Property read on an object literal given as the list of its entries. *)
Fixpoint lookup_entry (k : string) (o : list (string * string)) : option string :=
  match o with
  | [] => None
  | (k', v) :: o' => if decide (k' = k) then Some v else lookup_entry k o'
  end.

(** The global variable a UMD artifact reads an external module from. *)
Definition global_of (b : Vite.build_options) (id : string) : option string :=
  lookup_entry id (Vite.globals (Vite.rollupOptions b)).

(** ** [package.json] *)

Module Manifest.

(** The conditions of one subpath of [exports]. *)
Record conditions : Type := {
  import : string;
  require : string;
  types : string
}.

Record t : Type := {
  name : string;
  main : string;
  module : string;
  exports : list (string * conditions);
  files : list string;
  peerDependencies : list (string * string);
  dependencies : list (string * string)
}.

(** The paths a consumer loads JavaScript from. *)
Definition js_entries (m : t) : list string :=
  main m :: module m
  :: flat_map (λ e, [import e.2; require e.2]) (exports m).

End Manifest.

(** The manifest as the repository's guide quotes it; the fields the guide
    abridges ([scripts], [devDependencies]) and the descriptive ones are left
    out. *)
Definition package_json : Manifest.t :=
  {| Manifest.name := "component-app";
     Manifest.main := "./dist/component-app.umd.js";
     Manifest.module := "./dist/component-app.es.js";
     Manifest.exports :=
       [(".", {| Manifest.import := "./dist/component-app.es.js";
                 Manifest.require := "./dist/component-app.umd.js";
                 Manifest.types := "./dist/index.d.ts" |})];
     Manifest.files := ["dist"];
     Manifest.peerDependencies :=
       [("react", "^18.0.0 || ^19.0.0"); ("react-dom", "^18.0.0 || ^19.0.0")];
     Manifest.dependencies := [] |}.

(** [build.outDir] is not set in [vite.config.ts]; the build tool then
    writes the artifacts to [dist]. *)
Definition outDir : string := "dist".

(** The path of an artifact as a manifest names it, relative to the
    package root. *)
Definition published (artifact : string) : string :=
  "./" +:+ outDir +:+ "/" +:+ artifact.

(** A caller that gives [inputClassName] and a pass-through [className]
    whose value is [undefined]. *)
Definition bag_undefined_class : gmap string value :=
  <["inputClassName" := VStr "field"]> (<["className" := VUndefined]> ∅).

(** * Properties *)

(** Membership of a literal name in a literal list, by evaluation. *)
Ltac by_evaluation := apply (bool_decide_unpack _); vm_compute; exact I.

(** ** Object operations *)

Section object_operations.
Implicit Types o lit : gmap string value.
Implicit Types k : string.

Lemma get_Some o k v : o !! k = Some v → JS.get o k = v.
Proof. unfold JS.get. by intros ->. Qed.

Lemma get_None o k : o !! k = None → JS.get o k = VUndefined.
Proof. unfold JS.get. by intros ->. Qed.

Lemma rest_lookup names o k :
  JS.rest names o !! k = if decide (k ∈ names) then None else o !! k.
Proof.
  unfold JS.rest. induction names as [|n names IH]; cbn [foldr].
  - rewrite decide_False; [done | apply not_elem_of_nil].
  - destruct (decide (n = k)) as [->|Hne].
    + rewrite lookup_delete_eq. rewrite decide_True; [done | left].
    + rewrite lookup_delete_ne by done. rewrite IH.
      destruct (decide (k ∈ names)) as [Hin|Hin].
      * rewrite decide_True; [done | by right].
      * rewrite decide_False; [done |].
        intros [->|?]%elem_of_cons; done.
Qed.

Lemma rest_lookup_named names o k : k ∈ names → JS.rest names o !! k = None.
Proof. intros Hin. rewrite rest_lookup. by rewrite decide_True. Qed.

Lemma rest_lookup_other names o k : k ∉ names → JS.rest names o !! k = o !! k.
Proof. intros Hin. rewrite rest_lookup. by rewrite decide_False. Qed.

Lemma spread_lookup lit o k :
  JS.spread lit o !! k =
  match o !! k with Some v => Some v | None => lit !! k end.
Proof.
  unfold JS.spread. rewrite lookup_union.
  by destruct (o !! k), (lit !! k).
Qed.

Lemma spread_empty o : JS.spread ∅ o = o.
Proof. unfold JS.spread. apply (right_id_L ∅ (∪)). Qed.

Lemma attribute_Some o k v : o !! k = Some v → attribute o k = rendered v.
Proof. unfold attribute. by intros ->. Qed.

End object_operations.

(** ** The input element of [Input] *)

(** [Input] builds a label element around the label value and the input
    element, in this order. *)
Lemma Input_unfold bag :
  Input bag =
  Elem "label" (label_attrs bag)
    [ Child (JS.get bag "label"); Elem "input" (input_attrs bag) [] ].
Proof. reflexivity. Qed.

Lemma named_type : "type" ∈ named_fields.
Proof. by_evaluation. Qed.

Lemma named_placeholder : "placeholder" ∈ named_fields.
Proof. by_evaluation. Qed.

Lemma className_not_named : "className" ∉ named_fields.
Proof. by_evaluation. Qed.

(** The Input scenario of the specification: a label element with class
    [wrap] and text [Email] around an input element with class [field],
    type [email] and the placeholder. *)
Example Input_email :
  Input bag_email =
  Elem "label" {[ "className" := VStr "wrap" ]}
    [ Child (VStr "Email");
      Elem "input"
        (<["className" := VStr "field"]>
           (<["type" := VStr "email"]>
              {[ "placeholder" := VStr "you@example.com" ]}))
        [] ].
Proof. reflexivity. Qed.

(** With no attribute at all the three attributes [Input] writes are
    [undefined]. *)
Example Input_empty :
  Input ∅ =
  Elem "label" {[ "className" := VUndefined ]}
    [ Child VUndefined;
      Elem "input"
        (<["className" := VUndefined]>
           (<["type" := VUndefined]> {[ "placeholder" := VUndefined ]}))
        [] ].
Proof. reflexivity. Qed.

Section input_attributes.
Variable bag : gmap string value.

Lemma input_type : input_attrs bag !! "type" = Some (JS.get bag "type").
Proof.
  unfold input_attrs. rewrite spread_lookup, (rest_lookup_named _ _ _ named_type).
  by simplify_map_eq.
Qed.

Lemma input_placeholder : input_attrs bag !! "placeholder" = Some (JS.get bag "placeholder").
Proof.
  unfold input_attrs. rewrite spread_lookup, (rest_lookup_named _ _ _ named_placeholder).
  by simplify_map_eq.
Qed.

Lemma input_className :
  input_attrs bag !! "className" =
  Some (default (JS.get bag "inputClassName") (bag !! "className")).
Proof.
  unfold input_attrs. rewrite spread_lookup, (rest_lookup_other _ _ _ className_not_named).
  destruct (bag !! "className"); [done | by simplify_map_eq].
Qed.

Lemma input_forwarded k v :
  k ∉ named_fields → bag !! k = Some v → input_attrs bag !! k = Some v.
Proof.
  intros Hk Hv. unfold input_attrs. rewrite spread_lookup, rest_lookup_other by done.
  by rewrite Hv.
Qed.

Lemma input_nothing_else k :
  k ∉ ["className"; "type"; "placeholder"] →
  input_attrs bag !! k = JS.rest named_fields bag !! k.
Proof.
  intros Hk. unfold input_attrs. rewrite spread_lookup.
  destruct (JS.rest named_fields bag !! k); [done |].
  rewrite !lookup_insert_ne, lookup_singleton_ne;
    [done | intros <-; apply Hk; by_evaluation ..].
Qed.

End input_attributes.

(** ** Class names *)

(** The label element carries [labelClassName] in every call. *)
Lemma label_className bag :
  label_attrs bag !! "className" = Some (JS.get bag "labelClassName").
Proof. unfold label_attrs. by simplify_map_eq. Qed.

Lemma Input_elements bag :
  elements_of (Input bag) =
  [("label", label_attrs bag); ("input", input_attrs bag)].
Proof. reflexivity. Qed.

(** C1, as the specification states it, fails: a caller that gives
    [inputClassName = "field"] together with a pass-through
    [className = "other"] gets an input element whose class is ["other"]. *)
Lemma class_names_not_always_applied : ¬ class_names_applied bag_two_classes.
Proof.
  intros (la & ia & Hel & _ & Hia).
  rewrite Input_elements in Hel. injection Hel as _ <-.
  rewrite input_className in Hia. vm_compute in Hia. discriminate.
Qed.

(** ** Label text *)

Lemma append_empty (s : string) : s +:+ "" = s.
Proof.
  induction s as [|a s IH]; [reflexivity |].
  change (String a (s +:+ "") = String a s). by rewrite IH.
Qed.

(** C2: the output is a label element wrapping the label value and the
    input element; when [label] is a string the text content of that label
    element is the string, and when [label] is omitted the output holds no
    text at all. *)
Theorem Input_label_text bag :
  (∃ la ia,
     Input bag = Elem "label" la [Child (JS.get bag "label"); Elem "input" ia []])
  ∧ (∀ s, bag !! "label" = Some (VStr s) → textContent (Input bag) = s)
  ∧ (bag !! "label" = None → textContent (Input bag) = "").
Proof.
  split; [by eexists _, _ |]. split.
  - intros s Hs. rewrite Input_unfold. cbn.
    rewrite (get_Some _ _ _ Hs). cbn. apply append_empty.
  - intros Hnone. rewrite Input_unfold. cbn.
    by rewrite (get_None _ _ Hnone).
Qed.

Lemma Input_label_text_witness :
  (bag_email !! "label" = Some (VStr "Email")
   ∧ textContent (Input bag_email) = "Email")
  ∧ ((∅ : gmap string value) !! "label" = None
     ∧ textContent (Input ∅) = "").
Proof.
  split.
  - split; [reflexivity |].
    apply (proj1 (proj2 (Input_label_text bag_email)) "Email"). reflexivity.
  - split; [reflexivity |].
    apply (proj2 (proj2 (Input_label_text ∅))). reflexivity.
Defined.

(** ** [type] and [placeholder] *)

(** C3: [Input] returns an element for every bag, and the [type] and
    [placeholder] props of the input element are the values of the two
    fields; a [type] or [placeholder] given as a string, whatever the
    string, is that attribute of the input element, and when the field is
    omitted the input element has no such attribute. *)
Theorem Input_type_placeholder bag :
  ∃ la c ia,
    Input bag = Elem "label" la [c; Elem "input" ia []]
    ∧ ia !! "type" = Some (JS.get bag "type")
    ∧ ia !! "placeholder" = Some (JS.get bag "placeholder")
    ∧ (∀ s, bag !! "type" = Some (VStr s) → attribute ia "type" = Some (VStr s))
    ∧ (bag !! "type" = None → attribute ia "type" = None)
    ∧ (∀ s, bag !! "placeholder" = Some (VStr s) →
            attribute ia "placeholder" = Some (VStr s))
    ∧ (bag !! "placeholder" = None → attribute ia "placeholder" = None).
Proof.
  exists (label_attrs bag), (Child (JS.get bag "label")), (input_attrs bag).
  split; [apply Input_unfold |].
  split; [apply input_type |]. split; [apply input_placeholder |].
  repeat split.
  - intros s Hs. rewrite (attribute_Some _ _ _ (input_type bag)).
    by rewrite (get_Some _ _ _ Hs).
  - intros Hnone. rewrite (attribute_Some _ _ _ (input_type bag)).
    by rewrite (get_None _ _ Hnone).
  - intros s Hs. rewrite (attribute_Some _ _ _ (input_placeholder bag)).
    by rewrite (get_Some _ _ _ Hs).
  - intros Hnone. rewrite (attribute_Some _ _ _ (input_placeholder bag)).
    by rewrite (get_None _ _ Hnone).
Qed.

Lemma Input_type_placeholder_witness :
  bag_odd_type !! "type" = Some (VStr "no-such-type")
  ∧ bag_odd_type !! "placeholder" = None
  ∧ ∃ la c ia,
      Input bag_odd_type = Elem "label" la [c; Elem "input" ia []]
      ∧ attribute ia "type" = Some (VStr "no-such-type")
      ∧ attribute ia "placeholder" = None.
Proof.
  split; [reflexivity |]. split; [reflexivity |].
  destruct (Input_type_placeholder bag_odd_type)
    as (la & c & ia & Hshape & _ & _ & Htype & _ & _ & Hnone).
  exists la, c, ia. split; [exact Hshape |]. split.
  - apply Htype. reflexivity.
  - apply Hnone. reflexivity.
Defined.

(** ** Pass-through attributes *)

(** C4: a key of the bag other than the five named fields reaches the input
    element with its value; the pass-through object is the bag without the
    named fields, and the input element has nothing else besides the three
    attributes [Input] writes itself. *)
Theorem Input_forwards bag :
  ∃ la c ia,
    Input bag = Elem "label" la [c; Elem "input" ia []]
    ∧ (∀ k v, k ∉ named_fields → bag !! k = Some v → ia !! k = Some v)
    ∧ (∀ k, k ∉ named_fields → JS.rest named_fields bag !! k = bag !! k)
    ∧ (∀ k, k ∈ named_fields → JS.rest named_fields bag !! k = None)
    ∧ (∀ k, k ∉ ["className"; "type"; "placeholder"] →
            ia !! k = JS.rest named_fields bag !! k).
Proof.
  exists (label_attrs bag), (Child (JS.get bag "label")), (input_attrs bag).
  split; [apply Input_unfold |]. repeat split.
  - apply input_forwarded.
  - intros k. apply rest_lookup_other.
  - intros k. apply rest_lookup_named.
  - apply input_nothing_else.
Qed.

Lemma Input_forwards_witness :
  ("onChange" ∉ named_fields)
  ∧ bag_extra !! "onChange" = Some (VFun 7)
  ∧ ("label" ∈ named_fields)
  ∧ ∃ la c ia,
      Input bag_extra = Elem "label" la [c; Elem "input" ia []]
      ∧ ia !! "onChange" = Some (VFun 7)
      ∧ ia !! "label" = None.
Proof.
  split; [by_evaluation |]. split; [reflexivity |]. split; [by_evaluation |].
  destruct (Input_forwards bag_extra)
    as (la & c & ia & Hshape & Hfwd & _ & Hnamed & Helse).
  exists la, c, ia. split; [exact Hshape |]. split.
  - apply Hfwd; [by_evaluation | reflexivity].
  - rewrite Helse; [apply Hnamed |]; by_evaluation.
Defined.

(** ** Precedence of a pass-through [className] *)

Lemma spread_covered (lit lit' o : gmap string value) :
  (∀ k, o !! k = None → lit !! k = lit' !! k) →
  JS.spread lit o = JS.spread lit' o.
Proof.
  intros Hagree. apply map_eq. intros k. rewrite !spread_lookup.
  destruct (o !! k) eqn:Hk; [done | by apply Hagree].
Qed.

Lemma get_insert_ne (o : gmap string value) (k k' : string) (w : value) :
  k ≠ k' → JS.get (<[k := w]> o) k' = JS.get o k'.
Proof. intros Hne. unfold JS.get. by rewrite lookup_insert_ne. Qed.

Lemma get_delete_ne (o : gmap string value) (k k' : string) :
  k ≠ k' → JS.get (delete k o) k' = JS.get o k'.
Proof. intros Hne. unfold JS.get. by rewrite lookup_delete_ne. Qed.

Lemma rest_insert_named (o : gmap string value) (k : string) (w : value) :
  k ∈ named_fields →
  JS.rest named_fields (<[k := w]> o) = JS.rest named_fields (delete k o).
Proof.
  intros Hk. apply map_eq. intros k'. rewrite !rest_lookup.
  case_decide as Hk'; [done |].
  assert (k ≠ k') by (by intros ->).
  by rewrite lookup_insert_ne, lookup_delete_ne.
Qed.

(** C5: when the pass-through attributes hold a [className] entry, the class
    of the input element is that entry and the output does not depend on
    [inputClassName]; the pass-through object never holds [type] or
    [placeholder], so the input element takes both from the named fields. *)
Theorem Input_className_precedence bag v :
  bag !! "className" = Some v →
  (∃ la c ia,
     Input bag = Elem "label" la [c; Elem "input" ia []]
     ∧ ia !! "className" = Some v
     ∧ ia !! "type" = Some (JS.get bag "type")
     ∧ ia !! "placeholder" = Some (JS.get bag "placeholder"))
  ∧ (∀ w, Input (<["inputClassName" := w]> bag)
          = Input (delete "inputClassName" bag))
  ∧ JS.rest named_fields bag !! "type" = None
  ∧ JS.rest named_fields bag !! "placeholder" = None.
Proof.
  intros Hcls. repeat split.
  - exists (label_attrs bag), (Child (JS.get bag "label")), (input_attrs bag).
    split; [apply Input_unfold |]. split; [| split].
    + rewrite input_className. by rewrite Hcls.
    + apply input_type.
    + apply input_placeholder.
  - intros w. rewrite !Input_unfold. unfold label_attrs, input_attrs.
    rewrite !get_insert_ne, !get_delete_ne by done.
    rewrite rest_insert_named by by_evaluation.
    do 2 f_equal. f_equal. f_equal.
    apply spread_covered. intros k Hk.
    assert ("className" ≠ k) as Hne.
    { intros <-. rewrite rest_lookup_other in Hk by by_evaluation.
      rewrite lookup_delete_ne in Hk by done. congruence. }
    destruct (decide ("placeholder" = k)) as [<-|Hp];
      [by rewrite !lookup_insert_eq | rewrite !(lookup_insert_ne _ "placeholder") by done].
    destruct (decide ("type" = k)) as [<-|Ht];
      [by rewrite !lookup_insert_eq | rewrite !(lookup_insert_ne _ "type") by done].
    by rewrite !lookup_singleton_ne.
  - apply rest_lookup_named, named_type.
  - apply rest_lookup_named, named_placeholder.
Qed.

Lemma Input_className_precedence_witness :
  bag_two_classes !! "className" = Some (VStr "other")
  ∧ (∃ la c ia,
       Input bag_two_classes = Elem "label" la [c; Elem "input" ia []]
       ∧ ia !! "className" = Some (VStr "other"))
  ∧ Input (<["inputClassName" := VStr "ignored"]> bag_two_classes)
    = Input (delete "inputClassName" bag_two_classes).
Proof.
  split; [reflexivity |].
  destruct (Input_className_precedence bag_two_classes (VStr "other") eq_refl)
    as ((la & c & ia & Hshape & Hcls & _) & Hsame & _).
  split; [by exists la, c, ia | apply Hsame].
Defined.

(** ** Button *)

(** C6: every key/value pair of the attribute mapping given to Button is on
    the button element with the same value, and the element has no attribute
    the mapping does not have. *)
Theorem Button_forwards (props : gmap string value) :
  ∃ attrs,
    Button props = Elem "button" attrs []
    ∧ (∀ k v, props !! k = Some v → attrs !! k = Some v)
    ∧ (∀ k, attrs !! k = props !! k).
Proof.
  exists (JS.spread ∅ props). split; [reflexivity |].
  rewrite spread_empty. by split.
Qed.

Lemma Button_forwards_witness :
  bag_click !! "onClick" = Some (VFun 0)
  ∧ bag_click !! "disabled" = Some (VBool true)
  ∧ ∃ attrs,
      Button bag_click = Elem "button" attrs []
      ∧ attrs !! "onClick" = Some (VFun 0)
      ∧ attrs !! "disabled" = Some (VBool true).
Proof.
  split; [reflexivity |]. split; [reflexivity |].
  destruct (Button_forwards bag_click) as (attrs & Hshape & Hfwd & _).
  exists attrs. split; [exact Hshape |].
  split; apply Hfwd; reflexivity.
Defined.

(** ** Public API and build configuration *)

(** C8: the export table of the entry module has exactly the two members
    Button and Input, bound to the two components, and the build starts from
    that one module. *)
Theorem public_api (dirname : string) :
  ESModule.exported_names index_ts = ["Button"; "Input"]
  ∧ (∀ name,
       ESModule.lookup_export name index_ts =
       if decide (name = "Button") then Some Button
       else if decide (name = "Input") then Some Input
       else None)
  ∧ Vite.entry_points (Vite.entry (Vite.lib (build dirname)))
    = [resolve dirname "src/index.ts"].
Proof.
  split; [reflexivity |]. split; [| reflexivity].
  intros name.
  change index_ts with [("Button", Button); ("Input", Input)].
  cbn [ESModule.lookup_export].
  destruct (decide (name = "Button")) as [->|Hb].
  { by rewrite decide_True. }
  rewrite (decide_False (P := "Button" = name)) by done.
  destruct (decide (name = "Input")) as [->|Hi].
  { by rewrite decide_True. }
  by rewrite (decide_False (P := "Input" = name)).
Qed.

(** C9: the build declares the two formats es and umd, each giving one
    artifact from the single entry point, and declares react, react-dom and
    react/jsx-runtime external, so none of them is among the bundled modules
    whatever the sources import. *)
Theorem build_declares (dirname : string) (imports : list string) :
  Vite.formats (Vite.lib (build dirname)) = [Vite.es; Vite.umd]
  ∧ Vite.artifacts (build dirname)
    = ["component-app.es.js"; "component-app.umd.js"]
  ∧ Vite.entry_points (Vite.entry (Vite.lib (build dirname)))
    = [resolve dirname "src/index.ts"]
  ∧ Vite.external (Vite.rollupOptions (build dirname))
    = ["react"; "react-dom"; "react/jsx-runtime"]
  ∧ (∀ id, id ∈ ["react"; "react-dom"; "react/jsx-runtime"] →
           Vite.is_external (build dirname) id = true
           ∧ id ∉ Vite.bundled (build dirname) imports).
Proof.
  repeat (split; [reflexivity |]).
  intros id Hid.
  assert (Vite.is_external (build dirname) id = true) as Hext.
  { unfold Vite.is_external. apply bool_decide_eq_true_2. exact Hid. }
  split; [exact Hext |].
  unfold Vite.bundled. rewrite list_elem_of_filter.
  intros [Hfalse _]. congruence.
Qed.

Lemma build_declares_witness :
  ("react/jsx-runtime" ∈ ["react"; "react-dom"; "react/jsx-runtime"])
  ∧ Vite.is_external (build "/repo") "react/jsx-runtime" = true
  ∧ ("react/jsx-runtime"
     ∉ Vite.bundled (build "/repo") ["react/jsx-runtime"; "./components/Input"]).
Proof.
  assert ("react/jsx-runtime" ∈ ["react"; "react-dom"; "react/jsx-runtime"])
    as Hin by by_evaluation.
  split; [exact Hin |].
  apply (proj2 (proj2 (proj2 (proj2
    (build_declares "/repo" ["react/jsx-runtime"; "./components/Input"]))))).
  exact Hin.
Defined.

(** ** The label wrapper *)

(** C10: for every bag the output is a label element wrapping the label
    value and the input element, and it is the first element of the tree;
    when neither label text nor label class is given the wrapper is still
    there, around the input element, with an undefined class and an
    undefined text child. *)
Theorem Input_always_label bag :
  (∃ la ia,
     Input bag = Elem "label" la [Child (JS.get bag "label"); Elem "input" ia []]
     ∧ head (elements_of (Input bag)) = Some ("label", la))
  ∧ (bag !! "label" = None → bag !! "labelClassName" = None →
     ∃ ia,
       Input bag =
       Elem "label" {[ "className" := VUndefined ]}
         [Child VUndefined; Elem "input" ia []]).
Proof.
  split.
  - by exists (label_attrs bag), (input_attrs bag).
  - intros Hlabel Hclass. exists (input_attrs bag).
    rewrite Input_unfold. unfold label_attrs.
    by rewrite (get_None _ _ Hlabel), (get_None _ _ Hclass).
Qed.

Lemma Input_always_label_witness :
  bag_odd_type !! "label" = None
  ∧ bag_odd_type !! "labelClassName" = None
  ∧ ∃ ia,
      Input bag_odd_type =
      Elem "label" {[ "className" := VUndefined ]}
        [Child VUndefined; Elem "input" ia []].
Proof.
  split; [reflexivity |]. split; [reflexivity |].
  exact (proj2 (Input_always_label bag_odd_type) eq_refl eq_refl).
Defined.

(** * Further properties of [Input] *)

(** ** How the rest object and the spread follow an update of the bag *)

Section bag_updates.
Implicit Types o lit bag : gmap string value.
Implicit Types k n : string.

Lemma rest_insert_other names o k v :
  k ∉ names → JS.rest names (<[k := v]> o) = <[k := v]> (JS.rest names o).
Proof.
  intros Hk. apply map_eq. intros j. rewrite rest_lookup.
  destruct (decide (k = j)) as [<-|Hne].
  - rewrite decide_False by done. by rewrite !lookup_insert_eq.
  - rewrite !lookup_insert_ne by done. by rewrite rest_lookup.
Qed.

Lemma rest_delete names o k :
  JS.rest names (delete k o) = delete k (JS.rest names o).
Proof.
  apply map_eq. intros j. rewrite rest_lookup.
  destruct (decide (k = j)) as [<-|Hne].
  - rewrite !lookup_delete_eq. by case_decide.
  - rewrite !lookup_delete_ne by done. by rewrite rest_lookup.
Qed.

Lemma rest_delete_named names o k :
  k ∈ names → JS.rest names (delete k o) = JS.rest names o.
Proof.
  intros Hk. apply map_eq. intros j. rewrite !rest_lookup.
  case_decide as Hj; [done |].
  assert (k ≠ j) by (by intros ->).
  by rewrite lookup_delete_ne.
Qed.

Lemma rest_set_named o k v :
  k ∈ named_fields → JS.rest named_fields (<[k := v]> o) = JS.rest named_fields o.
Proof.
  intros Hk. rewrite rest_insert_named by done. by apply rest_delete_named.
Qed.

Lemma spread_insert lit o k v :
  JS.spread lit (<[k := v]> o) = <[k := v]> (JS.spread lit o).
Proof. unfold JS.spread. by rewrite insert_union_l. Qed.

Lemma spread_insert_lit lit o k v :
  o !! k = None → JS.spread (<[k := v]> lit) o = <[k := v]> (JS.spread lit o).
Proof. intros Hk. unfold JS.spread. by rewrite insert_union_r. Qed.

Lemma spread_delete lit o k :
  lit !! k = None → JS.spread lit (delete k o) = delete k (JS.spread lit o).
Proof.
  intros Hk. apply map_eq. intros j. rewrite spread_lookup.
  destruct (decide (k = j)) as [<-|Hne].
  - by rewrite !lookup_delete_eq.
  - rewrite !lookup_delete_ne by done. by rewrite spread_lookup.
Qed.

Lemma get_insert_eq o k v : JS.get (<[k := v]> o) k = v.
Proof. unfold JS.get. by rewrite lookup_insert_eq. Qed.

Lemma get_named_insert bag k v n :
  k ∉ named_fields → n ∈ named_fields → JS.get (<[k := v]> bag) n = JS.get bag n.
Proof. intros Hk Hn. apply get_insert_ne. by intros ->. Qed.

Lemma get_named_delete bag k n :
  k ∉ named_fields → n ∈ named_fields → JS.get (delete k bag) n = JS.get bag n.
Proof. intros Hk Hn. apply get_delete_ne. by intros ->. Qed.

Lemma get_insert_undefined o k n :
  JS.get (<[k := VUndefined]> o) n = JS.get (delete k o) n.
Proof.
  unfold JS.get. destruct (decide (k = n)) as [<-|Hne].
  - by rewrite lookup_insert_eq, lookup_delete_eq.
  - by rewrite lookup_insert_ne, lookup_delete_ne.
Qed.

End bag_updates.

Lemma named_label : "label" ∈ named_fields.
Proof. by_evaluation. Qed.

Lemma named_inputClassName : "inputClassName" ∈ named_fields.
Proof. by_evaluation. Qed.

Lemma named_labelClassName : "labelClassName" ∈ named_fields.
Proof. by_evaluation. Qed.

Lemma label_attrs_insert_other bag k v :
  k ∉ named_fields → label_attrs (<[k := v]> bag) = label_attrs bag.
Proof.
  intros Hk. unfold label_attrs.
  by rewrite (get_named_insert _ _ _ _ Hk named_labelClassName).
Qed.

Lemma input_attrs_insert_other bag k v :
  k ∉ named_fields → input_attrs (<[k := v]> bag) = <[k := v]> (input_attrs bag).
Proof.
  intros Hk. unfold input_attrs.
  rewrite (get_named_insert _ _ _ _ Hk named_placeholder),
          (get_named_insert _ _ _ _ Hk named_type),
          (get_named_insert _ _ _ _ Hk named_inputClassName).
  rewrite rest_insert_other by done. apply spread_insert.
Qed.

Lemma input_attrs_delete_other bag k :
  k ∉ named_fields → k ≠ "className" →
  input_attrs (delete k bag) = delete k (input_attrs bag).
Proof.
  intros Hk Hcls. unfold input_attrs.
  rewrite (get_named_delete _ _ _ Hk named_placeholder),
          (get_named_delete _ _ _ Hk named_type),
          (get_named_delete _ _ _ Hk named_inputClassName).
  rewrite rest_delete. apply spread_delete.
  assert ("placeholder" ≠ k) by (intros <-; apply Hk, named_placeholder).
  assert ("type" ≠ k) by (intros <-; apply Hk, named_type).
  rewrite !lookup_insert_ne by done. by rewrite lookup_singleton_ne.
Qed.

(** ** Setting and removing a pass-through attribute *)

(** X1: setting an attribute that is none of the five named fields sets that
    attribute on the input element and changes nothing else: the label
    element, the label text and the other attributes of the input element
    stay as they were. *)
Theorem Input_set_passthrough bag k v :
  k ∉ named_fields →
  Input (<[k := v]> bag) =
  Elem "label" (label_attrs bag)
    [ Child (JS.get bag "label");
      Elem "input" (<[k := v]> (input_attrs bag)) [] ].
Proof.
  intros Hk. rewrite Input_unfold.
  rewrite label_attrs_insert_other, input_attrs_insert_other by done.
  by rewrite (get_named_insert _ _ _ _ Hk named_label).
Qed.

Lemma Input_set_passthrough_witness :
  ("id" ∉ named_fields)
  ∧ Input (<["id" := VStr "mail"]> bag_email) =
    Elem "label" (label_attrs bag_email)
      [ Child (JS.get bag_email "label");
        Elem "input" (<["id" := VStr "mail"]> (input_attrs bag_email)) [] ].
Proof.
  assert ("id" ∉ named_fields) as Hid by by_evaluation.
  split; [exact Hid | exact (Input_set_passthrough bag_email "id" (VStr "mail") Hid)].
Defined.

(** X2: removing a pass-through attribute other than [className] removes
    that attribute from the input element and changes nothing else. *)
Theorem Input_unset_passthrough bag k :
  k ∉ named_fields → k ≠ "className" →
  Input (delete k bag) =
  Elem "label" (label_attrs bag)
    [ Child (JS.get bag "label");
      Elem "input" (delete k (input_attrs bag)) [] ].
Proof.
  intros Hk Hcls. rewrite Input_unfold.
  rewrite input_attrs_delete_other by done.
  unfold label_attrs.
  by rewrite (get_named_delete _ _ _ Hk named_labelClassName),
             (get_named_delete _ _ _ Hk named_label).
Qed.

Lemma Input_unset_passthrough_witness :
  ("onChange" ∉ named_fields) ∧ "onChange" ≠ "className"
  ∧ Input (delete "onChange" bag_extra) =
    Elem "label" (label_attrs bag_extra)
      [ Child (JS.get bag_extra "label");
        Elem "input" (delete "onChange" (input_attrs bag_extra)) [] ].
Proof.
  assert ("onChange" ∉ named_fields) as Hk by by_evaluation.
  assert ("onChange" ≠ "className") as Hne by discriminate.
  split; [exact Hk |]. split; [exact Hne |].
  exact (Input_unset_passthrough bag_extra "onChange" Hk Hne).
Defined.

(** X3: removing the pass-through [className] does not remove the class of
    the input element: the class falls back to [inputClassName], and nothing
    else changes. *)
Theorem Input_unset_className bag :
  Input (delete "className" bag) =
  Elem "label" (label_attrs bag)
    [ Child (JS.get bag "label");
      Elem "input"
        (<["className" := JS.get bag "inputClassName"]> (input_attrs bag)) [] ].
Proof.
  rewrite Input_unfold. unfold label_attrs.
  rewrite (get_named_delete _ _ _ className_not_named named_labelClassName),
          (get_named_delete _ _ _ className_not_named named_label).
  do 3 f_equal. f_equal. apply map_eq. intros j.
  destruct (decide ("className" = j)) as [<-|Hne].
  - rewrite lookup_insert_eq, input_className, lookup_delete_eq. cbn.
    by rewrite (get_named_delete _ _ _ className_not_named named_inputClassName).
  - rewrite lookup_insert_ne by done.
    unfold input_attrs. rewrite !spread_lookup, rest_delete.
    rewrite lookup_delete_ne by done.
    rewrite (get_named_delete _ _ _ className_not_named named_placeholder),
            (get_named_delete _ _ _ className_not_named named_type),
            (get_named_delete _ _ _ className_not_named named_inputClassName).
    done.
Qed.

(** ** What each named field reaches *)

Lemma input_attrs_set_named bag k v :
  k ∈ named_fields → k ≠ "placeholder" → k ≠ "type" → k ≠ "inputClassName" →
  input_attrs (<[k := v]> bag) = input_attrs bag.
Proof.
  intros Hk Hp Ht Hi. unfold input_attrs.
  rewrite !(get_insert_ne _ k) by done. by rewrite rest_set_named.
Qed.

(** The two class fields can hold the same value; the label element then
    has the value of [inputClassName] as its class. *)
Example class_value_shared :
  label_attrs (<["inputClassName" := VStr "a"]> {[ "labelClassName" := VStr "a" ]})
    !! "className"
  = Some (JS.get (<["inputClassName" := VStr "a"]> {[ "labelClassName" := VStr "a" ]})
            "inputClassName").
Proof. reflexivity. Qed.

(** C1, amended: in every call the output has exactly two elements, the
    label and the input, and the class of the label element is
    [labelClassName]; when the pass-through attributes hold no [className]
    entry, the class of the input element is [inputClassName].  Neither
    class reaches another node: the label element is the same whatever
    [inputClassName] is, the input element is the same whatever
    [labelClassName] is, and when there is no pass-through [className] and
    the two class values differ, only the input element has the value of
    [inputClassName] as its class and only the label element has the value
    of [labelClassName] as its class. *)
Theorem Input_class_names bag :
  ∃ la ia,
    elements_of (Input bag) = [("label", la); ("input", ia)]
    ∧ la !! "className" = Some (JS.get bag "labelClassName")
    ∧ (bag !! "className" = None →
       ia !! "className" = Some (JS.get bag "inputClassName"))
    ∧ (∀ v, ∃ ia',
         elements_of (Input (<["inputClassName" := v]> bag))
         = [("label", la); ("input", ia')])
    ∧ (∀ v, ∃ la',
         elements_of (Input (<["labelClassName" := v]> bag))
         = [("label", la'); ("input", ia)])
    ∧ (bag !! "className" = None →
       JS.get bag "inputClassName" ≠ JS.get bag "labelClassName" →
       ∀ tag attrs, (tag, attrs) ∈ elements_of (Input bag) →
         (attrs !! "className" = Some (JS.get bag "inputClassName") →
          tag = "input")
         ∧ (attrs !! "className" = Some (JS.get bag "labelClassName") →
            tag = "label")).
Proof.
  exists (label_attrs bag), (input_attrs bag).
  split; [apply Input_elements |]. split; [apply label_className |].
  split; [| split; [| split]].
  - intros Hnone. rewrite input_className. by rewrite Hnone.
  - intros v. exists (input_attrs (<["inputClassName" := v]> bag)).
    rewrite Input_elements. unfold label_attrs. by rewrite get_insert_ne.
  - intros v. exists (label_attrs (<["labelClassName" := v]> bag)).
    rewrite Input_elements.
    by rewrite (input_attrs_set_named _ _ _ named_labelClassName).
  - intros Hnone Hdiff tag attrs. rewrite Input_elements.
    intros [Heq|[Heq|Hnil%elem_of_nil]%elem_of_cons]%elem_of_cons; [| |done].
    + injection Heq as -> ->. split; [| done].
      rewrite label_className. intros Hsame. congruence.
    + injection Heq as -> ->. split; [done |].
      rewrite input_className, Hnone. cbn. intros Hsame. congruence.
Qed.

Lemma Input_class_names_witness :
  bag_email !! "className" = None
  ∧ JS.get bag_email "inputClassName" ≠ JS.get bag_email "labelClassName"
  ∧ (("label", label_attrs bag_email) ∈ elements_of (Input bag_email))
  ∧ ∃ la ia,
      elements_of (Input bag_email) = [("label", la); ("input", ia)]
      ∧ la !! "className" = Some (VStr "wrap")
      ∧ ia !! "className" = Some (VStr "field")
      ∧ (label_attrs bag_email !! "className" = Some (VStr "field") →
         "label" = "input").
Proof.
  assert (bag_email !! "className" = None) as Hnone by reflexivity.
  assert (JS.get bag_email "inputClassName" ≠ JS.get bag_email "labelClassName")
    as Hdiff by (vm_compute; discriminate).
  assert (("label", label_attrs bag_email) ∈ elements_of (Input bag_email)) as Hel.
  { rewrite Input_elements. left. }
  split; [exact Hnone |]. split; [exact Hdiff |]. split; [exact Hel |].
  destruct (Input_class_names bag_email)
    as (la & ia & Hshape & Hla & Hia & _ & _ & Honly).
  exists la, ia. split; [exact Hshape |]. split; [exact Hla |].
  split; [exact (Hia Hnone) |].
  exact (proj1 (Honly Hnone Hdiff "label" (label_attrs bag_email) Hel)).
Defined.

(** X4: [label] reaches the text child of the label element and nothing
    else: whatever the value given, the attributes of the label element and
    of the input element are those of the bag without it. *)
Theorem Input_set_label bag v :
  Input (<["label" := v]> bag) =
  Elem "label" (label_attrs bag)
    [ Child v; Elem "input" (input_attrs bag) [] ].
Proof.
  rewrite Input_unfold, get_insert_eq.
  rewrite (input_attrs_set_named _ _ _ named_label) by done.
  unfold label_attrs. by rewrite get_insert_ne.
Qed.

(** X5: [labelClassName] reaches the class of the label element and nothing
    else: the label text and the input element do not depend on it. *)
Theorem Input_set_labelClassName bag v :
  Input (<["labelClassName" := v]> bag) =
  Elem "label" {[ "className" := v ]}
    [ Child (JS.get bag "label"); Elem "input" (input_attrs bag) [] ].
Proof.
  rewrite Input_unfold.
  rewrite (input_attrs_set_named _ _ _ named_labelClassName) by done.
  unfold label_attrs. by rewrite get_insert_eq, get_insert_ne.
Qed.

(** X6: [type] and [placeholder] each reach the attribute of that name on
    the input element and nothing else; no pass-through attribute can stand
    in their way. *)
Theorem Input_set_type_placeholder bag v :
  Input (<["type" := v]> bag) =
    Elem "label" (label_attrs bag)
      [ Child (JS.get bag "label");
        Elem "input" (<["type" := v]> (input_attrs bag)) [] ]
  ∧ Input (<["placeholder" := v]> bag) =
    Elem "label" (label_attrs bag)
      [ Child (JS.get bag "label");
        Elem "input" (<["placeholder" := v]> (input_attrs bag)) [] ].
Proof.
  split; rewrite Input_unfold; unfold label_attrs, input_attrs;
    rewrite ?get_insert_eq, !get_insert_ne by done.
  - rewrite (rest_set_named _ _ _ named_type).
    rewrite <- spread_insert_lit by apply rest_lookup_named, named_type.
    rewrite (insert_insert_ne _ "type" "placeholder") by done.
    by rewrite insert_insert_eq.
  - rewrite (rest_set_named _ _ _ named_placeholder).
    rewrite <- spread_insert_lit by apply rest_lookup_named, named_placeholder.
    by rewrite insert_insert_eq.
Qed.

(** X7: when the bag holds no pass-through [className], [inputClassName]
    reaches the class of the input element and nothing else. *)
Theorem Input_set_inputClassName bag v :
  bag !! "className" = None →
  Input (<["inputClassName" := v]> bag) =
  Elem "label" (label_attrs bag)
    [ Child (JS.get bag "label");
      Elem "input" (<["className" := v]> (input_attrs bag)) [] ].
Proof.
  intros Hnone. rewrite Input_unfold. unfold label_attrs, input_attrs.
  rewrite ?get_insert_eq, !get_insert_ne by done.
  rewrite (rest_set_named _ _ _ named_inputClassName).
  rewrite <- spread_insert_lit
    by (by rewrite (rest_lookup_other _ _ _ className_not_named)).
  rewrite (insert_insert_ne _ "className" "placeholder") by done.
  rewrite (insert_insert_ne _ "className" "type") by done.
  by rewrite insert_singleton_eq.
Qed.

Lemma Input_set_inputClassName_witness :
  bag_email !! "className" = None
  ∧ Input (<["inputClassName" := VStr "wide"]> bag_email) =
    Elem "label" (label_attrs bag_email)
      [ Child (JS.get bag_email "label");
        Elem "input" (<["className" := VStr "wide"]> (input_attrs bag_email)) [] ].
Proof.
  split; [reflexivity |].
  exact (Input_set_inputClassName bag_email (VStr "wide") eq_refl).
Defined.

(** X8: giving a named field the value [undefined] is the same as leaving it
    out. *)
Theorem Input_named_undefined bag k :
  k ∈ named_fields → Input (<[k := VUndefined]> bag) = Input (delete k bag).
Proof.
  intros Hk. rewrite !Input_unfold. unfold label_attrs, input_attrs.
  rewrite !get_insert_undefined. by rewrite rest_insert_named.
Qed.

Lemma Input_named_undefined_witness :
  ("type" ∈ named_fields)
  ∧ Input (<["type" := VUndefined]> bag_email) = Input (delete "type" bag_email).
Proof.
  split; [exact named_type | exact (Input_named_undefined bag_email "type" named_type)].
Defined.

(** ** Which attributes the elements have *)

Lemma rest_dom names (o : gmap string value) :
  dom (JS.rest names o) = dom o ∖ list_to_set names.
Proof.
  apply set_eq. intros k.
  rewrite elem_of_difference, elem_of_list_to_set, !elem_of_dom, rest_lookup.
  case_decide as Hk.
  - split; [by intros [? ?] | by intros [_ ?]].
  - split; [by intros ? | by intros [? _]].
Qed.

(** X9: the input element has the three attributes [Input] writes and the
    attributes of the bag that are not named fields, and no others. *)
Theorem input_attribute_names bag :
  ∃ la c ia,
    Input bag = Elem "label" la [c; Elem "input" ia []]
    ∧ dom ia =
      {[ "className"; "type"; "placeholder" ]}
      ∪ (dom bag ∖ list_to_set named_fields).
Proof.
  exists (label_attrs bag), (Child (JS.get bag "label")), (input_attrs bag).
  split; [apply Input_unfold |].
  unfold input_attrs, JS.spread.
  rewrite dom_union_L, !dom_insert_L, dom_singleton_L, rest_dom.
  apply set_eq. intros k. rewrite !elem_of_union, !elem_of_singleton. tauto.
Qed.

(** X10: no element of the output has an attribute named [label],
    [inputClassName] or [labelClassName], and the label element has no
    attribute but [className]: what the caller passes through never lands
    on the label. *)
Theorem Input_keeps_fields_off tag attrs k bag :
  (tag, attrs) ∈ elements_of (Input bag) →
  (k ∈ ["label"; "inputClassName"; "labelClassName"] → attrs !! k = None)
  ∧ (tag = "label" → k ≠ "className" → attrs !! k = None).
Proof.
  rewrite Input_elements.
  intros [Heq|[Heq|Hnil%elem_of_nil]%elem_of_cons]%elem_of_cons; [| |done].
  - injection Heq as -> ->. unfold label_attrs. split.
    + intros Hk. apply lookup_singleton_ne. intros <-. revert Hk. by_evaluation.
    + intros _ Hk. by apply lookup_singleton_ne.
  - injection Heq as -> ->. split; [| discriminate].
    intros Hk.
    assert (k ∈ named_fields) as Hnamed.
    { revert Hk. unfold named_fields. rewrite !elem_of_cons. tauto. }
    rewrite input_nothing_else; [by apply rest_lookup_named |].
    intros Hthree. revert Hk Hthree. rewrite !elem_of_cons, !elem_of_nil.
    intros [->|[->|[->|[]]]] [?|[?|[?|[]]]]; discriminate.
Qed.

Lemma Input_keeps_fields_off_witness :
  ((("input", input_attrs bag_email) ∈ elements_of (Input bag_email))
   ∧ ("inputClassName" ∈ ["label"; "inputClassName"; "labelClassName"])
   ∧ input_attrs bag_email !! "inputClassName" = None)
  ∧ ((("label", label_attrs bag_extra) ∈ elements_of (Input bag_extra))
     ∧ "id" ≠ "className"
     ∧ bag_extra !! "id" = Some (VStr "email")
     ∧ label_attrs bag_extra !! "id" = None).
Proof.
  assert (("input", input_attrs bag_email) ∈ elements_of (Input bag_email)) as Hel.
  { rewrite Input_elements. right. left. }
  assert ("inputClassName" ∈ ["label"; "inputClassName"; "labelClassName"]) as Hk.
  { right. left. }
  assert (("label", label_attrs bag_extra) ∈ elements_of (Input bag_extra)) as Hel'.
  { rewrite Input_elements. left. }
  assert ("id" ≠ "className") as Hne by discriminate.
  split.
  - split; [exact Hel |]. split; [exact Hk |].
    exact (proj1 (Input_keeps_fields_off "input" (input_attrs bag_email)
                    "inputClassName" bag_email Hel) Hk).
  - split; [exact Hel' |]. split; [exact Hne |]. split; [reflexivity |].
    exact (proj2 (Input_keeps_fields_off "label" (label_attrs bag_extra)
                    "id" bag_extra Hel') eq_refl Hne).
Defined.

(** ** [undefined] and [null] among the pass-through attributes *)

Lemma attribute_insert_unrendered (o : gmap string value) k v k' :
  rendered v = None → attribute (<[k := v]> o) k' = attribute (delete k o) k'.
Proof.
  intros Hv. unfold attribute. destruct (decide (k = k')) as [<-|Hne].
  - by rewrite lookup_insert_eq, lookup_delete_eq.
  - by rewrite lookup_insert_ne, lookup_delete_ne.
Qed.

(** X11: a pass-through [className] whose value is [undefined] or [null]
    leaves the input element without a class, also when [inputClassName] is
    given. *)
Theorem Input_className_unrendered bag v la c ia :
  bag !! "className" = Some v → rendered v = None →
  Input bag = Elem "label" la [c; Elem "input" ia []] →
  attribute ia "className" = None.
Proof.
  intros Hcls Hv Hshape. rewrite Input_unfold in Hshape.
  injection Hshape as _ _ <-.
  rewrite (attribute_Some _ _ _ (input_className bag)).
  by rewrite Hcls.
Qed.

Lemma Input_className_unrendered_witness :
  bag_undefined_class !! "className" = Some VUndefined
  ∧ bag_undefined_class !! "inputClassName" = Some (VStr "field")
  ∧ attribute (input_attrs bag_undefined_class) "className" = None.
Proof.
  split; [reflexivity |]. split; [reflexivity |].
  exact (Input_className_unrendered bag_undefined_class VUndefined _ _ _
           eq_refl eq_refl (Input_unfold bag_undefined_class)).
Defined.

(** X12: for a pass-through attribute other than [className], giving the
    value [undefined] or [null] renders the same as leaving the attribute
    out: the label element and the label text are the same, and the input
    element has the same rendered attributes. *)
Theorem Input_passthrough_unrendered bag k v :
  k ∉ named_fields → k ≠ "className" → rendered v = None →
  ∃ la c ia ia',
    Input (<[k := v]> bag) = Elem "label" la [c; Elem "input" ia []]
    ∧ Input (delete k bag) = Elem "label" la [c; Elem "input" ia' []]
    ∧ ∀ k', attribute ia k' = attribute ia' k'.
Proof.
  intros Hk Hcls Hv.
  exists (label_attrs bag), (Child (JS.get bag "label")),
         (<[k := v]> (input_attrs bag)), (delete k (input_attrs bag)).
  split; [| split].
  - rewrite Input_unfold.
    rewrite label_attrs_insert_other, input_attrs_insert_other by done.
    by rewrite (get_named_insert _ _ _ _ Hk named_label).
  - rewrite Input_unfold, input_attrs_delete_other by done.
    unfold label_attrs.
    by rewrite (get_named_delete _ _ _ Hk named_labelClassName),
               (get_named_delete _ _ _ Hk named_label).
  - intros k'. by apply attribute_insert_unrendered.
Qed.

Lemma Input_passthrough_unrendered_witness :
  ("id" ∉ named_fields) ∧ "id" ≠ "className" ∧ rendered VNull = None
  ∧ ∃ la c ia ia',
      Input (<["id" := VNull]> bag_extra) = Elem "label" la [c; Elem "input" ia []]
      ∧ Input (delete "id" bag_extra) = Elem "label" la [c; Elem "input" ia' []]
      ∧ ∀ k', attribute ia k' = attribute ia' k'.
Proof.
  assert ("id" ∉ named_fields) as Hk by by_evaluation.
  assert ("id" ≠ "className") as Hne by discriminate.
  split; [exact Hk |]. split; [exact Hne |]. split; [reflexivity |].
  exact (Input_passthrough_unrendered bag_extra "id" VNull Hk Hne eq_refl).
Defined.

(** ** Rendering again from the attributes of the input element *)

(** X13: the attributes [Input] gives the input element are a fixed point:
    called with them as its bag, [Input] builds an input element with these
    same attributes, inside a label element with no class and no text. *)
Theorem Input_of_input_attrs bag :
  Input (input_attrs bag) =
  Elem "label" {[ "className" := VUndefined ]}
    [ Child VUndefined; Elem "input" (input_attrs bag) [] ].
Proof.
  assert (∀ k, k ∈ named_fields → k ∉ ["className"; "type"; "placeholder"] →
               JS.get (input_attrs bag) k = VUndefined) as Hnamed.
  { intros k Hk Hthree. apply get_None.
    rewrite input_nothing_else by done. by apply rest_lookup_named. }
  rewrite Input_unfold. unfold label_attrs.
  rewrite (Hnamed "labelClassName"), (Hnamed "label") by by_evaluation.
  do 3 f_equal. f_equal.
  unfold input_attrs at 1.
  rewrite (get_Some _ _ _ (input_placeholder bag)),
          (get_Some _ _ _ (input_type bag)),
          (Hnamed "inputClassName") by by_evaluation.
  apply map_eq. intros k. rewrite spread_lookup, rest_lookup.
  case_decide as Hk.
  - destruct (decide ("placeholder" = k)) as [<-|Hp];
      [by rewrite lookup_insert_eq, input_placeholder |].
    rewrite lookup_insert_ne by done.
    destruct (decide ("type" = k)) as [<-|Ht];
      [by rewrite lookup_insert_eq, input_type |].
    rewrite lookup_insert_ne by done.
    assert ("className" ≠ k) as Hc.
    { intros <-. by apply className_not_named. }
    rewrite lookup_singleton_ne by done.
    rewrite input_nothing_else; [by rewrite rest_lookup_named |].
    rewrite !elem_of_cons, elem_of_nil.
    intros [?|[?|[?|[]]]]; congruence.
  - destruct (input_attrs bag !! k) eqn:Hia; [done |].
    assert ("placeholder" ≠ k) by (intros <-; apply Hk, named_placeholder).
    assert ("type" ≠ k) by (intros <-; apply Hk, named_type).
    assert ("className" ≠ k) as Hc.
    { intros <-. rewrite input_className in Hia. discriminate. }
    rewrite !lookup_insert_ne by done. by rewrite lookup_singleton_ne.
Qed.

(** * Further properties of the build configuration *)

(** X14: [fileName] gives different formats different file names, so no
    artifact of the build overwrites another. *)
Theorem fileName_distinct (dirname : string) (f1 f2 : Vite.format) :
  f1 ≠ f2 →
  Vite.fileName (Vite.lib (build dirname)) f1
  ≠ Vite.fileName (Vite.lib (build dirname)) f2.
Proof. intros Hne Heq. destruct f1, f2; (done || discriminate Heq). Qed.

Lemma fileName_distinct_witness :
  Vite.es ≠ Vite.umd
  ∧ Vite.fileName (Vite.lib (build "/repo")) Vite.es
    ≠ Vite.fileName (Vite.lib (build "/repo")) Vite.umd.
Proof.
  assert (Vite.es ≠ Vite.umd) as Hne by discriminate.
  split; [exact Hne | exact (fileName_distinct "/repo" Vite.es Vite.umd Hne)].
Defined.

(** X15: the modules declared external are exactly the modules
    [output.globals] names a global variable for. *)
Theorem externals_have_globals (dirname id : string) :
  Vite.is_external (build dirname) id = true
  ↔ is_Some (global_of (build dirname) id).
Proof.
  unfold Vite.is_external. rewrite bool_decide_eq_true.
  change (Vite.external (Vite.rollupOptions (build dirname)))
    with ["react"; "react-dom"; "react/jsx-runtime"].
  change (global_of (build dirname) id)
    with (lookup_entry id [("react", "React"); ("react-dom", "ReactDOM");
                           ("react/jsx-runtime", "jsxRuntime")]).
  cbn [lookup_entry]. rewrite !elem_of_cons, elem_of_nil.
  destruct (decide ("react" = id)) as [<-|H1]; [split; eauto |].
  destruct (decide ("react-dom" = id)) as [<-|H2]; [split; eauto |].
  destruct (decide ("react/jsx-runtime" = id)) as [<-|H3]; [split; eauto |].
  split.
  - intros [?|[?|[?|[]]]]; congruence.
  - intros [? ?]. discriminate.
Qed.

Lemma externals_have_globals_witness :
  Vite.is_external (build "/repo") "react-dom" = true
  ∧ global_of (build "/repo") "react-dom" = Some "ReactDOM"
  ∧ is_Some (global_of (build "/repo") "react-dom").
Proof.
  split; [reflexivity |]. split; [reflexivity |].
  exact (proj1 (externals_have_globals "/repo" "react-dom") eq_refl).
Defined.

(** X16: every path the manifest gives a consumer to load JavaScript from
    names an artifact the build writes, in a directory the package
    publishes; the UMD artifact serves [main] and [require], the ES artifact
    [module] and [import]. *)
Theorem manifest_entries_are_built (dirname p : string) :
  p ∈ Manifest.js_entries package_json →
  (∃ a, a ∈ Vite.artifacts (build dirname) ∧ p = published a)
  ∧ outDir ∈ Manifest.files package_json
  ∧ Manifest.main package_json
    = published (Vite.fileName (Vite.lib (build dirname)) Vite.umd)
  ∧ Manifest.module package_json
    = published (Vite.fileName (Vite.lib (build dirname)) Vite.es)
  ∧ (∀ c, (".", c) ∈ Manifest.exports package_json →
          Manifest.require c
          = published (Vite.fileName (Vite.lib (build dirname)) Vite.umd)
          ∧ Manifest.import c
            = published (Vite.fileName (Vite.lib (build dirname)) Vite.es)).
Proof.
  intros Hp. split; [| split; [left | split; [reflexivity | split; [reflexivity |]]]].
  - change (Manifest.js_entries package_json)
      with [published "component-app.umd.js"; published "component-app.es.js";
            published "component-app.es.js"; published "component-app.umd.js"] in Hp.
    change (Vite.artifacts (build dirname))
      with ["component-app.es.js"; "component-app.umd.js"].
    revert Hp. rewrite !elem_of_cons, elem_of_nil.
    intros [->|[->|[->|[->|[]]]]]; eexists; (split; [| reflexivity]);
      rewrite !elem_of_cons; tauto.
  - intros c [Hc|Hnil%elem_of_nil]%elem_of_cons; [| done].
    injection Hc as ->. by split.
Qed.

Lemma manifest_entries_are_built_witness :
  ("./dist/component-app.es.js" ∈ Manifest.js_entries package_json)
  ∧ ∃ a, a ∈ Vite.artifacts (build "/repo")
         ∧ "./dist/component-app.es.js" = published a.
Proof.
  assert ("./dist/component-app.es.js" ∈ Manifest.js_entries package_json) as Hp.
  { right. left. }
  split; [exact Hp |].
  exact (proj1 (manifest_entries_are_built "/repo" _ Hp)).
Defined.
